(** * ImagenetModelEvaluator: the ILSVRC accuracy evaluator's interface

    A shallow embedding of
    [tensorflow/lite/tools/accuracy/ilsvrc/imagenet_model_evaluator.h].

    The header defines the configuration record [Params] with its default
    member initialisers, the observer interface, the evaluator's three
    fields, its constructor, [AddObserver] and [params()].  [EvaluateModel]
    and [Create] are declared there and defined in a translation unit that
    is not part of the sources at hand.

    The development has four parts: the data and the member functions the
    header defines; what an evaluation does, following the description of
    [EvaluateModel], with the components it delegates to as parameters; a
    partition scheme and a small dataset to run the definitions on; and the
    properties. *)

From stdpp Require Import base option list strings gmap.

Open Scope string_scope.
Open Scope list_scope.
Open Scope Z_scope.

(** ** Data model *)

(** [struct Params]: six [std::string] members, three [int] members and
    one [bool], in the order declared.  The header does no arithmetic on the
    [int] members, so they are integers here; what holds for every integer
    holds for every [int]. *)
Record Params : Type := mkParams {
  ground_truth_images_path : string;
  ground_truth_labels_path : string;
  model_output_labels_path : string;
  model_file_path : string;
  blacklist_file_path : string;
  delegate : string;
  number_of_images : Z;
  num_ranks : Z;
  num_interpreter_threads : Z;
  allow_fp16 : bool
}.

(** [Params params;] : a [std::string] member without an initialiser is
    default-constructed (empty); the other members carry the initialisers
    written in the struct. *)
Definition Params_default : Params :=
  {| ground_truth_images_path := "";
     ground_truth_labels_path := "";
     model_output_labels_path := "";
     model_file_path := "";
     blacklist_file_path := "";
     delegate := "";
     number_of_images := 0;
     num_ranks := 10;
     num_interpreter_threads := 1;
     allow_fp16 := false |}.

(** The comment on [Params::delegate]:
    "Valid values: 'nnapi', 'gpu', 'hexagon', 'xnnpack'". *)
Definition valid_delegates : list string :=
  ["nnapi"; "gpu"; "hexagon"; "xnnpack"].

Definition valid_delegate (s : string) : bool :=
  bool_decide (s ∈ valid_delegates).

(** [Observer*]: observers are held by address, never owned or copied (the
    copy and move operations of [Observer] are deleted).  A pointer is its
    address; [0] is [nullptr]. *)
Definition ObserverPtr : Type := N.

(** [class ImagenetModelEvaluator]: the three private members. *)
Record ImagenetModelEvaluator : Type := mkEvaluator {
  params_ : Params;
  num_threads_ : Z;
  observers_ : list ObserverPtr
}.

(** The constructor copies [params] and [num_threads]; [observers_] is
    value-initialised to the empty vector. *)
Definition ImagenetModelEvaluator_new (params : Params) (num_threads : Z)
  : ImagenetModelEvaluator :=
  {| params_ := params; num_threads_ := num_threads; observers_ := [] |}.

(** [void AddObserver(Observer* observer)]: [observers_.push_back(observer)]. *)
Definition AddObserver (observer : ObserverPtr) (e : ImagenetModelEvaluator)
  : ImagenetModelEvaluator :=
  {| params_ := params_ e;
     num_threads_ := num_threads_ e;
     observers_ := observers_ e ++ [observer] |}.

(** [const Params& params() const { return params_; }] *)
Definition params (e : ImagenetModelEvaluator) : Params := params_ e.

(** Modelled from the spec: the type [TfLiteStatus], declared in
    [tensorflow/lite/c/common.h], which the header includes and which is
    not among the sources.  The "status code" has the two outcomes an
    evaluation distinguishes: success and failure. *)
Inductive TfLiteStatus : Type := kTfLiteOk | kTfLiteError.

(** Modelled from the spec: an image of the dataset as the loader hands it
    over, a type of the absent translation unit: the index the blacklist
    refers to ("a list of image indices"), and the file that identifies the
    image to the observers ("image identifier"). *)
Record IndexedImage : Type := mkImage {
  image_index : Z;
  image_file : string
}.

#[global] Instance IndexedImage_eq_dec : EqDecision IndexedImage.
Proof. solve_decision. Defined.

(** ** The observer interface

    [class Observer] has two pure virtual member functions.  A call of one
    of them on an observer is an event of an evaluation; the third event
    records that the evaluation stage of a shard was invoked on an image.
    The metrics are a message of the type
    [tflite::evaluation::TopkAccuracyEvalMetrics], which belongs to the
    evaluation framework the header includes: a parameter. *)
Inductive Event {TopkAccuracyEvalMetrics : Type} : Type :=
| OnEvaluationStart (observer : ObserverPtr)
    (shard_id_image_count_map : gmap N Z)
| OnSingleImageEvaluationComplete (observer : ObserverPtr) (shard_id : N)
    (metrics : TopkAccuracyEvalMetrics) (image : string)
| StageRun (shard_id : N) (image : IndexedImage).

(** ** Method calls on an evaluator object

    [EvaluateModel] is declared [const], [params_] and [num_threads_] are
    [const] members and no member is [mutable]: whatever its body computes,
    a call reads the object and its argument and leaves the three fields as
    they were.  For the statements about the object's fields the body is a
    parameter: any function from the object and the (nullable) pointer to
    [tflite::evaluation::DelegateProviders] to what the call yields. *)
Inductive Call {DelegateProviders : Type} : Type :=
| CallAddObserver (observer : ObserverPtr)
| CallEvaluateModel (delegate_providers : option DelegateProviders).

(** One call: the object afterwards and, for [EvaluateModel], what it
    returned. *)
Definition call {DelegateProviders Outcome : Type}
    (EvaluateModel_body :
       ImagenetModelEvaluator -> option DelegateProviders -> Outcome)
    (e : ImagenetModelEvaluator) (c : Call)
  : ImagenetModelEvaluator * option Outcome :=
  match c with
  | CallAddObserver o => (AddObserver o e, None)
  | CallEvaluateModel dp => (e, Some (EvaluateModel_body e dp))
  end.

(** A sequence of calls, in program order. *)
Fixpoint run {DelegateProviders Outcome : Type}
    (EvaluateModel_body :
       ImagenetModelEvaluator -> option DelegateProviders -> Outcome)
    (e : ImagenetModelEvaluator) (cs : list Call) : ImagenetModelEvaluator :=
  match cs with
  | [] => e
  | c :: cs' => run EvaluateModel_body (call EvaluateModel_body e c).1 cs'
  end.

(** The observers a call sequence registers, in order. *)
Fixpoint registered {DelegateProviders : Type}
    (cs : list (@Call DelegateProviders)) : list ObserverPtr :=
  match cs with
  | [] => []
  | CallAddObserver o :: cs' => o :: registered cs'
  | CallEvaluateModel _ :: cs' => registered cs'
  end.

(** What the [EvaluateModel] calls of a sequence return, in program order:
    each call is made on the object as the calls before it left it. *)
Fixpoint outcomes {DelegateProviders Outcome : Type}
    (EvaluateModel_body :
       ImagenetModelEvaluator -> option DelegateProviders -> Outcome)
    (e : ImagenetModelEvaluator) (cs : list Call) : list Outcome :=
  match cs with
  | [] => []
  | c :: cs' =>
      match (call EvaluateModel_body e c).2 with
      | Some r =>
          r :: outcomes EvaluateModel_body (call EvaluateModel_body e c).1 cs'
      | None => outcomes EvaluateModel_body (call EvaluateModel_body e c).1 cs'
      end
  end.

(** ** What an evaluation does

    The body of [EvaluateModel] is not in the header.  The definitions
    below follow the description of the evaluation: discover the eligible
    images, partition them into shards, invoke the per-shard evaluation stage
    on each image, relay each completed result to the observers. *)

(** Modelled from the spec: the components the absent body of
    [EvaluateModel] delegates to ("dataset loader, evaluation-stage
    executor, delegate provider, interpreter runtime"), each a parameter.

    - The dataset loader: the images found for the configured paths, each
      with its index, and the indices listed in the blacklist file; [None]
      is a failure to read.
    - The evaluation stage of a shard: created once per shard from the
      parameters and the delegate providers, then run on one image after
      the other; a run yields the metrics handed to the observers, or
      fails.
    - The thread count that sizes the shards.  The object holds two,
      [num_threads_] and [params_.num_interpreter_threads]; which of them
      the partition uses is decided in the absent body.
    - The identifier of the shard at a position, and the partition scheme
      (of which the properties assume only that it is a partition). *)
Record Collaborators
    {TopkAccuracyEvalMetrics DelegateProviders StageState : Type} : Type :=
  mkCollaborators {
  load_images : Params -> option (list IndexedImage);
  load_blacklist : Params -> option (list Z);
  stage_init : Params -> option DelegateProviders -> N -> option StageState;
  stage_run :
    StageState -> IndexedImage -> option (StageState * TopkAccuracyEvalMetrics);
  shard_threads : ImagenetModelEvaluator -> Z;
  shard_id : nat -> N;
  partition : nat -> list IndexedImage -> list (list IndexedImage)
}.

Arguments Collaborators : clear implicits.

(** Modelled from the spec: the exclusion of blacklisted indices, part of
    the absent body of [EvaluateModel] ("discover the eligible image set
    (excluding blacklisted indices)"). *)
Definition exclude_blacklisted (blacklist : list Z) (images : list IndexedImage)
  : list IndexedImage :=
  filter (λ x, image_index x ∉ blacklist) images.

(** Modelled from the spec: the image count cap, part of the absent body of
    [EvaluateModel].  The comment on [Params::number_of_images] gives the
    rule: "0 means all images, a positive number means only the specified
    number of images".  No meaning is given to a negative number; it is
    taken as no cap. *)
Definition cap_images (number_of_images : Z) (images : list IndexedImage)
  : list IndexedImage :=
  if decide (0 < number_of_images)
  then take (Z.to_nat number_of_images) images
  else images.

(** Modelled from the spec: the eligible image set of the absent body of
    [EvaluateModel]: the loaded images without the blacklisted ones, cut to
    the cap. *)
Definition eligible_images (p : Params) (images : list IndexedImage)
    (blacklist : list Z) : list IndexedImage :=
  cap_images (number_of_images p) (exclude_blacklisted blacklist images).

(** Modelled from the spec: the relay of one completed result of the absent
    body of [EvaluateModel] ("relay each completed result to observers"):
    one call per entry of [observers_], in registration order. *)
Definition relay {TopkAccuracyEvalMetrics : Type}
    (observers : list ObserverPtr) (sid : N)
    (metrics : TopkAccuracyEvalMetrics) (image : string) : list Event :=
  (λ o, OnSingleImageEvaluationComplete o sid metrics image) <$> observers.

(** Modelled from the spec: what a call of [EvaluateModel] yields: the
    returned status, the observer calls made at the start, and the calls
    each shard makes, in the shard's own order. *)
Record Evaluation {TopkAccuracyEvalMetrics : Type} : Type := mkEvaluation {
  status : TfLiteStatus;
  start_calls : list (@Event TopkAccuracyEvalMetrics);
  shard_calls : list (list (@Event TopkAccuracyEvalMetrics))
}.

(** Modelled from the spec: the status of the whole evaluation from those
    of its shards ("all failures are surfaced as a status value"). *)
Definition is_ok (s : TfLiteStatus) : bool :=
  match s with
  | kTfLiteOk => true
  | kTfLiteError => false
  end.

Definition all_ok (ss : list TfLiteStatus) : TfLiteStatus :=
  if forallb is_ok ss then kTfLiteOk else kTfLiteError.

Section Evaluation.

Context {TopkAccuracyEvalMetrics DelegateProviders StageState : Type}.
Variable C : Collaborators TopkAccuracyEvalMetrics DelegateProviders StageState.

(** Modelled from the spec: the shards of the absent body of
    [EvaluateModel] ("partition it into shards sized by thread count").  A
    failed read and a thread count that is not positive leave no shards. *)
Definition shards_of (e : ImagenetModelEvaluator)
  : option (list (list IndexedImage)) :=
  images ← load_images C (params_ e);
  blacklist ← load_blacklist C (params_ e);
  if decide (0 < shard_threads C e)
  then Some (partition C (Z.to_nat (shard_threads C e))
               (eligible_images (params_ e) images blacklist))
  else None.

(** Modelled from the spec: the per-image loop of a shard of the absent body
    of [EvaluateModel] ("invoke an external per-shard evaluation stage per
    image, and relay each completed result to observers").  A failed run
    ends the shard with [kTfLiteError]: the failure is reported through the
    status, and no result exists to relay. *)
Fixpoint evaluate_images (observers : list ObserverPtr) (sid : N)
    (st : StageState) (images : list IndexedImage)
  : TfLiteStatus * list (@Event TopkAccuracyEvalMetrics) :=
  match images with
  | [] => (kTfLiteOk, [])
  | x :: rest =>
      match stage_run C st x with
      | None => (kTfLiteError, [StageRun sid x])
      | Some (st', m) =>
          let r := evaluate_images observers sid st' rest in
          (r.1, StageRun sid x :: relay observers sid m (image_file x) ++ r.2)
      end
  end.

(** Modelled from the spec: one shard of the absent body of
    [EvaluateModel]: its stage is created, then its images are evaluated. *)
Definition evaluate_shard (e : ImagenetModelEvaluator)
    (dp : option DelegateProviders) (i : nat) (images : list IndexedImage)
  : TfLiteStatus * list (@Event TopkAccuracyEvalMetrics) :=
  match stage_init C (params_ e) dp (shard_id C i) with
  | None => (kTfLiteError, [])
  | Some st => evaluate_images (observers_ e) (shard_id C i) st images
  end.

(** Modelled from the spec: the "completed" images of a shard of the absent
    body of [EvaluateModel], with the metrics of their stage runs: the
    images up to the first failing run. *)
Fixpoint completions (st : StageState) (images : list IndexedImage)
  : list (IndexedImage * TopkAccuracyEvalMetrics) :=
  match images with
  | [] => []
  | x :: rest =>
      match stage_run C st x with
      | None => []
      | Some (st', m) => (x, m) :: completions st' rest
      end
  end.

(** Modelled from the spec: the completed images of the shard at a
    position, tagged with its identifier; none when its stage cannot be
    created. *)
Definition shard_completions (e : ImagenetModelEvaluator)
    (dp : option DelegateProviders) (i : nat) (images : list IndexedImage)
  : list (N * (IndexedImage * TopkAccuracyEvalMetrics)) :=
  match stage_init C (params_ e) dp (shard_id C i) with
  | None => []
  | Some st => (λ c, (shard_id C i, c)) <$> completions st images
  end.

(** Modelled from the spec: the completed images of an evaluation, over
    all shards: shard identifier, image and metrics. *)
Definition completed_images (e : ImagenetModelEvaluator)
    (dp : option DelegateProviders)
  : list (N * (IndexedImage * TopkAccuracyEvalMetrics)) :=
  match shards_of e with
  | None => []
  | Some shards => concat (imap (shard_completions e dp) shards)
  end.

(** Modelled from the spec: the argument the absent body of
    [EvaluateModel] hands to [OnEvaluationStart], a
    [std::unordered_map<uint64_t, int>] "from shard id to image count". *)
Definition image_count_map (shards : list (list IndexedImage)) : gmap N Z :=
  list_to_map (imap (λ i s, (shard_id C i, Z.of_nat (length s))) shards).

(** Modelled from the spec: the body of [EvaluateModel], declared in the
    header and defined in [imagenet_model_evaluator.cc], which is absent.
    The eligible images are discovered and partitioned, every observer is
    told the image count of each shard, and every shard evaluates its
    images; a failure anywhere makes the status [kTfLiteError]. *)
Definition EvaluateModel (e : ImagenetModelEvaluator)
    (dp : option DelegateProviders) : @Evaluation TopkAccuracyEvalMetrics :=
  match shards_of e with
  | None => {| status := kTfLiteError; start_calls := []; shard_calls := [] |}
  | Some shards =>
      let runs := imap (evaluate_shard e dp) shards in
      {| status := all_ok (fst <$> runs);
         start_calls :=
           (λ o, OnEvaluationStart o (image_count_map shards)) <$> observers_ e;
         shard_calls := snd <$> runs |}
  end.

End Evaluation.

(** Modelled from the spec: the shards proceed independently ("observers
    can be called from multiple threads"), so what is seen of the whole
    evaluation is some interleaving of the sequences, each kept in its own
    order. *)
Inductive interleaving {A : Type} : list (list A) -> list A -> Prop :=
| interleaving_done (ls : list (list A)) :
    Forall (λ l, l = []) ls -> interleaving ls []
| interleaving_step (ls : list (list A)) (i : nat) (x : A) (l t : list A) :
    ls !! i = Some (x :: l) ->
    interleaving (<[i := l]> ls) t ->
    interleaving ls (x :: t).

(** Modelled from the spec: the traces of an evaluation, the interleavings
    of the calls made at the start and of the calls of the shards. *)
Definition observable {TopkAccuracyEvalMetrics : Type}
    (ev : @Evaluation TopkAccuracyEvalMetrics) (t : list Event) : Prop :=
  interleaving (start_calls ev :: shard_calls ev) t.

(** The images the stage was invoked on, in trace order. *)
Definition stage_image {TopkAccuracyEvalMetrics : Type}
    (ev : @Event TopkAccuracyEvalMetrics) : option IndexedImage :=
  match ev with
  | StageRun _ x => Some x
  | _ => None
  end.

Definition stage_runs {TopkAccuracyEvalMetrics : Type}
    (t : list (@Event TopkAccuracyEvalMetrics)) : list IndexedImage :=
  omap stage_image t.

(** The calls of [OnSingleImageEvaluationComplete] for an image. *)
Definition completes {TopkAccuracyEvalMetrics : Type} (image : string)
    (ev : @Event TopkAccuracyEvalMetrics) : Prop :=
  match ev with
  | OnSingleImageEvaluationComplete _ _ _ i => i = image
  | _ => False
  end.

#[global] Instance completes_dec {TopkAccuracyEvalMetrics : Type} image
    (ev : @Event TopkAccuracyEvalMetrics) : Decision (completes image ev).
Proof. destruct ev; simpl; apply _. Defined.

(** The calls of [OnSingleImageEvaluationComplete] on one observer for an
    image. *)
Definition notifies {TopkAccuracyEvalMetrics : Type} (o : ObserverPtr)
    (image : string) (ev : @Event TopkAccuracyEvalMetrics) : Prop :=
  match ev with
  | OnSingleImageEvaluationComplete o' _ _ i => o' = o /\ i = image
  | _ => False
  end.

#[global] Instance notifies_dec {TopkAccuracyEvalMetrics : Type} o image
    (ev : @Event TopkAccuracyEvalMetrics) : Decision (notifies o image ev).
Proof. destruct ev; simpl; apply _. Defined.





(** ** A partition scheme and a small dataset

    One way to partition: the images are dealt to the shards in turn.  The
    properties of an evaluation hold for every partition scheme; this one
    and the dataset below are used to run the definitions.  The loader
    yields the five images and the blacklist, the shards are sized by
    [num_threads_] and numbered from 0. *)
Fixpoint deal {A : Type} (shards : list (list A)) (k : nat) (l : list A)
  : list (list A) :=
  match l with
  | [] => shards
  | x :: l' =>
      deal (alter (λ s, s ++ [x]) (k mod length shards)%nat shards) (S k) l'
  end.

Definition round_robin {A : Type} (n : nat) (l : list A) : list (list A) :=
  deal (replicate n []) 0%nat l.

(** Five images, the second of them blacklisted, and at most three to be
    evaluated. *)
Definition sample_images : list IndexedImage :=
  [ mkImage 1 "ILSVRC2012_val_00000001.JPEG";
    mkImage 2 "ILSVRC2012_val_00000002.JPEG";
    mkImage 3 "ILSVRC2012_val_00000003.JPEG";
    mkImage 4 "ILSVRC2012_val_00000004.JPEG";
    mkImage 5 "ILSVRC2012_val_00000005.JPEG" ].

Definition sample_blacklist : list Z := [2].

Definition sample_params : Params :=
  {| ground_truth_images_path := "/data/ilsvrc/images";
     ground_truth_labels_path := "/data/ilsvrc/labels.txt";
     model_output_labels_path := "/data/model/labels.txt";
     model_file_path := "/data/model/mobilenet.tflite";
     blacklist_file_path := "/data/ilsvrc/blacklist.txt";
     delegate := "";
     number_of_images := 3;
     num_ranks := 10;
     num_interpreter_threads := 1;
     allow_fp16 := false |}.

(** Two shards, and two observers registered at the addresses 5 and 7. *)
Definition sample_evaluator : ImagenetModelEvaluator :=
  AddObserver 7%N
    (AddObserver 5%N (ImagenetModelEvaluator_new sample_params 2)).

(** A stage that counts the images it has seen and reports the count. *)
Definition sample_stage_init (p : Params) (dp : option unit) (sid : N)
  : option Z := Some 0.

Definition sample_stage_run (st : Z) (x : IndexedImage) : option (Z * Z) :=
  Some (st + 1, st + 1).

Definition sample_collaborators : Collaborators Z unit Z :=
  {| load_images := λ _, Some sample_images;
     load_blacklist := λ _, Some sample_blacklist;
     stage_init := sample_stage_init;
     stage_run := sample_stage_run;
     shard_threads := num_threads_;
     shard_id := N.of_nat;
     partition := round_robin |}.

(** A stage that fails on the image with index 4. *)
Definition failing_stage_run (st : Z) (x : IndexedImage) : option (Z * Z) :=
  if decide (image_index x = 4) then None else Some (st + 1, st + 1).

Definition failing_collaborators : Collaborators Z unit Z :=
  {| load_images := λ _, Some sample_images;
     load_blacklist := λ _, Some sample_blacklist;
     stage_init := sample_stage_init;
     stage_run := failing_stage_run;
     shard_threads := num_threads_;
     shard_id := N.of_nat;
     partition := round_robin |}.

(** One trace of the evaluation of the small dataset: the two shards and
    the start calls interleaved. *)
Definition sample_trace : list (@Event Z) :=
  let m : gmap N Z := {[ 0%N := 2; 1%N := 1 ]} in
  let img1 := mkImage 1 "ILSVRC2012_val_00000001.JPEG" in
  let img3 := mkImage 3 "ILSVRC2012_val_00000003.JPEG" in
  let img4 := mkImage 4 "ILSVRC2012_val_00000004.JPEG" in
  [ StageRun 1%N img3;
    OnEvaluationStart 5%N m;
    StageRun 0%N img1;
    OnEvaluationStart 7%N m;
    OnSingleImageEvaluationComplete 5%N 1%N 1 (image_file img3);
    OnSingleImageEvaluationComplete 5%N 0%N 1 (image_file img1);
    OnSingleImageEvaluationComplete 7%N 0%N 1 (image_file img1);
    OnSingleImageEvaluationComplete 7%N 1%N 1 (image_file img3);
    StageRun 0%N img4;
    OnSingleImageEvaluationComplete 5%N 0%N 2 (image_file img4);
    OnSingleImageEvaluationComplete 7%N 0%N 2 (image_file img4) ].







(** * Properties *)

Section Properties.

Context {TopkAccuracyEvalMetrics DelegateProviders StageState Outcome : Type}.
Variable C : Collaborators TopkAccuracyEvalMetrics DelegateProviders StageState.
Variable EvaluateModel_body :
  ImagenetModelEvaluator -> option DelegateProviders -> Outcome.

(** Of the partition scheme only what makes it a partition is assumed: it
    yields the requested number of shards, and the shards together hold the
    images it was given, each as often as it was given. *)
Hypothesis partition_length : forall n l, length (partition C n l) = n.
Hypothesis partition_perm :
  forall n l, (0 < n)%nat -> concat (partition C n l) ≡ₚ l.

(** ** Lists of lists and their interleavings *)






(** When one sequence alone holds the events a filter keeps, the filter
    of any interleaving is the filter of that sequence. *)
Lemma interleaving_filter_single {A : Type} (P : A -> Prop)
    `{!∀ x, Decision (P x)} (ls : list (list A)) t i li :
  interleaving ls t ->
  ls !! i = Some li ->
  (forall j l, j ≠ i -> ls !! j = Some l -> filter P l = []) ->
  filter P t = filter P li.
Proof.
  intros Hint; revert li.
  induction Hint as [ls Hnil|ls i0 x l t Hi0 _ IH]; intros li Hi Hothers.
  - rewrite Forall_lookup in Hnil. by rewrite (Hnil i li Hi).
  - destruct (decide (i0 = i)) as [->|Hne].
    + simplify_eq. rewrite !filter_cons.
      rewrite (IH l).
      * done.
      * apply list_lookup_insert_eq. by eapply lookup_lt_Some.
      * intros j l' Hj. rewrite list_lookup_insert_ne by done. by apply Hothers.
    + pose proof (Hothers i0 (x :: l) Hne Hi0) as Hx.
      rewrite filter_cons in Hx. destruct (decide (P x)) as [|HPx]; [done|].
      rewrite filter_cons_False by done.
      apply IH.
      * by rewrite list_lookup_insert_ne.
      * intros j l' Hj. destruct (decide (j = i0)) as [->|Hj0].
        -- rewrite list_lookup_insert_eq by (by eapply lookup_lt_Some).
           by intros [= <-].
        -- rewrite list_lookup_insert_ne by done. by apply Hothers.
Qed.

Lemma elem_of_concat_lookup {A : Type} (ls : list (list A)) i l x :
  ls !! i = Some l -> x ∈ l -> x ∈ concat ls.
Proof.
  revert i; induction ls as [|a ls IH]; intros [|i] Hi Hx; simplify_eq/=;
    apply elem_of_app; eauto.
Qed.

Lemma elem_of_concat_inv {A : Type} (ls : list (list A)) x :
  x ∈ concat ls -> exists i l, ls !! i = Some l /\ x ∈ l.
Proof.
  induction ls as [|a ls IH]; simpl; [by intros ?%elem_of_nil|].
  intros [Hx|Hx]%elem_of_app.
  - by exists 0%nat, a.
  - destruct (IH Hx) as (i & l & ? & ?). by exists (S i), l.
Qed.

Lemma NoDup_concat_inner {A : Type} (ls : list (list A)) i a :
  NoDup (concat ls) -> ls !! i = Some a -> NoDup a.
Proof.
  revert i; induction ls as [|b ls IH]; intros [|i] Hnd Hi; simplify_eq/=;
    apply NoDup_app in Hnd as (? & ? & ?); eauto.
Qed.

Lemma NoDup_concat_disjoint {A : Type} (ls : list (list A)) i j a b x :
  NoDup (concat ls) -> ls !! i = Some a -> ls !! j = Some b -> i ≠ j ->
  x ∈ a -> x ∉ b.
Proof.
  revert i j; induction ls as [|c ls IH]; intros [|i] [|j] Hnd Hi Hj Hij Hx;
    simplify_eq/=; apply NoDup_app in Hnd as (Hc & Hdisj & Hrest).
  - apply Hdisj in Hx. intros Hb. apply Hx.
    by eapply elem_of_concat_lookup.
  - intros Hb. apply (Hdisj x Hb).
    by eapply elem_of_concat_lookup.
  - eapply (IH i j); eauto.
Qed.


(** ** One shard *)


Lemma filter_completes_relay_eq observers sid (m : TopkAccuracyEvalMetrics)
    image :
  filter (completes image) (relay observers sid m image)
  = relay observers sid m image.
Proof.
  unfold relay. induction observers as [|o os IH]; [done|].
  rewrite fmap_cons, filter_cons_True by done. by rewrite IH.
Qed.

Lemma filter_completes_relay_ne observers sid (m : TopkAccuracyEvalMetrics)
    image image' :
  image' ≠ image ->
  filter (completes image) (relay observers sid m image') = [].
Proof.
  intros Hne. unfold relay. induction observers as [|o os IH]; [done|].
  by rewrite fmap_cons, filter_cons_False.
Qed.

Lemma completions_elem_of st images x m :
  (x, m) ∈ completions C st images -> x ∈ images.
Proof.
  revert st; induction images as [|y rest IH]; intros st; simpl.
  - by intros ?%elem_of_nil.
  - destruct (stage_run C st y) as [[st' m']|]; [|by intros ?%elem_of_nil].
    intros [?|?]%elem_of_cons; simplify_eq.
    + by left.
    + right; eauto.
Qed.





Lemma evaluate_images_filter_absent observers sid st images image :
  image ∉ image_file <$> images ->
  filter (completes image) (evaluate_images C observers sid st images).2 = [].
Proof.
  revert st; induction images as [|y rest IH]; intros st; simpl; [done|].
  intros [Hy Hrest]%not_elem_of_cons.
  destruct (stage_run C st y) as [[st' m']|]; simpl.
  - rewrite filter_cons_False by (by intros []).
    rewrite filter_app, filter_completes_relay_ne by done.
    by rewrite IH.
  - by rewrite filter_cons_False by (by intros []).
Qed.

(** In a shard whose images are distinct files, the calls of
    [OnSingleImageEvaluationComplete] for a completed image are its relay
    and nothing else. *)
Lemma evaluate_images_filter_completed observers sid st images x m :
  NoDup (image_file <$> images) ->
  (x, m) ∈ completions C st images ->
  filter (completes (image_file x))
    (evaluate_images C observers sid st images).2
  = relay observers sid m (image_file x).
Proof.
  revert st; induction images as [|y rest IH]; intros st; simpl.
  - by intros _ ?%elem_of_nil.
  - intros [Hy Hnd]%NoDup_cons.
    destruct (stage_run C st y) as [[st' m']|]; simpl;
      [|by intros ?%elem_of_nil].
    intros [?|Hx]%elem_of_cons; simplify_eq.
    + rewrite filter_cons_False by (by intros []).
      rewrite filter_app, filter_completes_relay_eq.
      rewrite evaluate_images_filter_absent by done.
      by rewrite app_nil_r.
    + assert (image_file y ≠ image_file x) as Hne.
      { intros Heq. apply Hy. rewrite Heq. apply list_elem_of_fmap.
        exists x. split; [done|]. by eapply completions_elem_of. }
      rewrite filter_cons_False by (by intros []).
      rewrite filter_app, filter_completes_relay_ne by done.
      by apply IH.
Qed.

(** ** The eligible images and the shards *)

Lemma exclude_blacklisted_sublist blacklist images :
  exclude_blacklisted blacklist images `sublist_of` images.
Proof. apply sublist_filter. Qed.

Lemma cap_images_sublist n images : cap_images n images `sublist_of` images.
Proof. unfold cap_images. case_decide; [apply sublist_take|done]. Qed.

Lemma eligible_images_sublist p images blacklist :
  eligible_images p images blacklist `sublist_of` images.
Proof.
  unfold eligible_images.
  etrans; [apply cap_images_sublist|apply exclude_blacklisted_sublist].
Qed.




Lemma shards_of_Some e shards :
  shards_of C e = Some shards ->
  exists images blacklist,
    load_images C (params_ e) = Some images /\
    load_blacklist C (params_ e) = Some blacklist /\
    0 < shard_threads C e /\
    shards = partition C (Z.to_nat (shard_threads C e))
               (eligible_images (params_ e) images blacklist).
Proof.
  unfold shards_of. intros H.
  destruct (load_images C (params_ e)) as [images|]; simpl in H; [|done].
  destruct (load_blacklist C (params_ e)) as [blacklist|]; simpl in H; [|done].
  case_decide; simplify_eq. by exists images, blacklist.
Qed.

Lemma shards_of_concat e shards images blacklist :
  shards_of C e = Some shards ->
  load_images C (params_ e) = Some images ->
  load_blacklist C (params_ e) = Some blacklist ->
  concat shards ≡ₚ eligible_images (params_ e) images blacklist.
Proof.
  intros (images' & blacklist' & Hi & Hb & Hpos & ->)%shards_of_Some ? ?.
  simplify_eq. apply partition_perm. lia.
Qed.

Lemma shards_of_length e shards :
  shards_of C e = Some shards ->
  Z.of_nat (length shards) = shard_threads C e.
Proof.
  intros (images & blacklist & _ & _ & Hpos & ->)%shards_of_Some.
  rewrite partition_length. lia.
Qed.

(** The map handed to the observers at the start gives every shard, under
    its identifier, the number of its images, when the shards have distinct
    identifiers. *)
Lemma image_count_map_lookup shards i l :
  Inj (=) (=) (shard_id C) ->
  shards !! i = Some l ->
  image_count_map C shards !! shard_id C i = Some (Z.of_nat (length l)).
Proof.
  intros Hinj Hi. unfold image_count_map.
  apply elem_of_list_to_map_1.
  - apply NoDup_alt. intros j1 j2 k.
    rewrite !list_lookup_fmap, !list_lookup_imap.
    destruct (shards !! j1), (shards !! j2); simpl; try done.
    intros [= <-] [= Heq]. by apply Hinj.
  - apply list_elem_of_lookup. exists i.
    by rewrite list_lookup_imap, Hi.
Qed.

Lemma fmap_concat {A B : Type} (f : A -> B) (ls : list (list A)) :
  f <$> concat ls = concat ((λ l : list A, f <$> l) <$> ls).
Proof.
  induction ls as [|l ls IH]; simpl; [done|].
  by rewrite fmap_app, IH.
Qed.

(** Distinct files stay distinct through the exclusion, the cap and the
    partition. *)
Lemma shards_files_NoDup e shards :
  (forall images,
     load_images C (params_ e) = Some images ->
     NoDup (image_file <$> images)) ->
  shards_of C e = Some shards ->
  NoDup (concat ((λ l : list IndexedImage, image_file <$> l) <$> shards)).
Proof.
  intros Hnd Hs.
  destruct (shards_of_Some e shards Hs)
    as (images & blacklist & Hi & Hb & _ & _).
  rewrite <- fmap_concat.
  rewrite (shards_of_concat e shards images blacklist Hs Hi Hb).
  eapply sublist_NoDup;
    [by apply Hnd|apply fmap_sublist, eligible_images_sublist].
Qed.

(** ** The whole evaluation *)







Lemma filter_completes_start image observers m :
  filter (completes image)
    ((λ o, @OnEvaluationStart TopkAccuracyEvalMetrics o m) <$> observers)
  = [].
Proof.
  induction observers as [|o os IH]; [done|].
  by rewrite fmap_cons, filter_cons_False by (by intros []).
Qed.

Lemma EvaluateModel_Some e dp shards :
  shards_of C e = Some shards ->
  EvaluateModel C e dp =
    {| status := all_ok (fst <$> imap (evaluate_shard C e dp) shards);
       start_calls :=
         (λ o, OnEvaluationStart o (image_count_map C shards)) <$> observers_ e;
       shard_calls := snd <$> imap (evaluate_shard C e dp) shards |}.
Proof. unfold EvaluateModel. by intros ->. Qed.









Lemma filter_notifies_relay o observers sid (m : TopkAccuracyEvalMetrics)
    image :
  length (filter (notifies o image) (relay observers sid m image))
  = length (filter (λ o', o' = o) observers).
Proof.
  unfold relay. induction observers as [|o' os IH]; [done|].
  rewrite fmap_cons, !filter_cons. simpl.
  destruct (decide (o' = o)) as [->|Hne].
  - rewrite decide_True by done. simpl. by rewrite IH.
  - rewrite decide_False by (by intros [? _]). done.
Qed.

(** ** Call sequences *)

Lemma call_params_ e c : params_ (call EvaluateModel_body e c).1 = params_ e.
Proof. by destruct c. Qed.

Lemma call_num_threads_ e c :
  num_threads_ (call EvaluateModel_body e c).1 = num_threads_ e.
Proof. by destruct c. Qed.

Lemma run_params_ e cs : params_ (run EvaluateModel_body e cs) = params_ e.
Proof.
  revert e; induction cs as [|c cs IH]; intros e; simpl; [done|].
  by rewrite IH, call_params_.
Qed.

Lemma run_num_threads_ e cs :
  num_threads_ (run EvaluateModel_body e cs) = num_threads_ e.
Proof.
  revert e; induction cs as [|c cs IH]; intros e; simpl; [done|].
  by rewrite IH, call_num_threads_.
Qed.

Lemma run_observers_ e cs :
  observers_ (run EvaluateModel_body e cs) = observers_ e ++ registered cs.
Proof.
  revert e; induction cs as [|c cs IH]; intros e; simpl.
  - by rewrite app_nil_r.
  - rewrite IH. destruct c; simpl; [|done].
    by rewrite <- app_assoc.
Qed.

Lemma filter_eq_absent (o : ObserverPtr) (os : list ObserverPtr) :
  o ∉ os -> filter (λ o', o' = o) os = [].
Proof.
  induction os as [|o' os IH]; [done|].
  intros [Hne Hos]%not_elem_of_cons.
  rewrite filter_cons_False by congruence. by apply IH.
Qed.

Lemma filter_eq_once (o : ObserverPtr) (os : list ObserverPtr) :
  o ∈ os -> NoDup os -> length (filter (λ o', o' = o) os) = 1%nat.
Proof.
  intros Ho Hnd. induction Hnd as [|o' os Ho' Hnd IH].
  - by apply elem_of_nil in Ho.
  - rewrite filter_cons. destruct (decide (o' = o)) as [->|Hne]; simpl.
    + by rewrite filter_eq_absent.
    + apply IH. apply elem_of_cons in Ho as [?|?]; [congruence|done].
Qed.

Lemma registered_AddObserver (os : list ObserverPtr) :
  registered (@CallAddObserver DelegateProviders <$> os) = os.
Proof. induction os as [|o os IH]; csimpl; [done|]. by rewrite IH. Qed.

(** ** The properties of the interface *)

(** C5.  The [Params] an evaluator is constructed with is never changed:
    after any sequence of [AddObserver] and [EvaluateModel] calls, whatever
    the body of [EvaluateModel] computes, [params()] returns the value the
    constructor was given. *)
Theorem params_immutable (p : Params) (num_threads : Z) (cs : list Call) :
  params (run EvaluateModel_body (ImagenetModelEvaluator_new p num_threads) cs)
  = p.
Proof. unfold params. by rewrite run_params_. Qed.

(** C6.  The observer list is the only field a call changes.
    [AddObserver] appends the given pointer at the end and keeps [params_]
    and [num_threads_]; a fresh evaluator given the observers [os] one by one
    holds exactly [os], in that order; a call of [EvaluateModel] leaves the
    object as it was; and after any call sequence the two [const] fields are
    unchanged and the list has grown by the registered observers, in call
    order. *)
Theorem observers_only_mutable_state :
  (forall e o,
     observers_ (AddObserver o e) = observers_ e ++ [o] /\
     params_ (AddObserver o e) = params_ e /\
     num_threads_ (AddObserver o e) = num_threads_ e) /\
  (forall p num_threads os,
     observers_ (run EvaluateModel_body
                   (ImagenetModelEvaluator_new p num_threads)
                     (CallAddObserver <$> os)) = os) /\
  (forall e dp, (call EvaluateModel_body e (CallEvaluateModel dp)).1 = e) /\
  (forall e cs,
     params_ (run EvaluateModel_body e cs) = params_ e /\
     num_threads_ (run EvaluateModel_body e cs) = num_threads_ e /\
     observers_ (run EvaluateModel_body e cs) = observers_ e ++ registered cs).
Proof.
  split; [|split; [|split]].
  - intros e o. by repeat split.
  - intros p n os. by rewrite run_observers_, registered_AddObserver.
  - done.
  - intros e cs. split; [|split].
    + apply run_params_.
    + apply run_num_threads_.
    + apply run_observers_.
Qed.

(** C10.  A default-constructed [Params]: no image cap, ten ranks, one
    interpreter thread, no fp16, and every path and the delegate empty. *)
Theorem Params_default_values :
  number_of_images Params_default = 0 /\
  num_ranks Params_default = 10 /\
  num_interpreter_threads Params_default = 1 /\
  allow_fp16 Params_default = false /\
  ground_truth_images_path Params_default = "" /\
  ground_truth_labels_path Params_default = "" /\
  model_output_labels_path Params_default = "" /\
  model_file_path Params_default = "" /\
  blacklist_file_path Params_default = "" /\
  delegate Params_default = "".
Proof. by repeat split. Qed.

(** C8, as amended.  The delegate is a free string: exactly the four
    documented names are valid values, the empty string of a
    default-constructed [Params] is not one of them, and the constructor
    stores whatever string it is given, valid or not, which [params()]
    returns unchanged after any sequence of calls. *)
Theorem delegate_unconstrained :
  (forall s,
     valid_delegate s = true <->
     s = "nnapi" \/ s = "gpu" \/ s = "hexagon" \/ s = "xnnpack") /\
  valid_delegate (delegate Params_default) = false /\
  (forall p num_threads cs,
     delegate
       (params
          (run EvaluateModel_body
             (ImagenetModelEvaluator_new p num_threads) cs))
     = delegate p).
Proof.
  split; [|split].
  - intros s. unfold valid_delegate, valid_delegates.
    rewrite bool_decide_eq_true, !elem_of_cons, elem_of_nil.
    split.
    + intros [?|[?|[?|[?|[]]]]]; auto.
    + intros [?|[?|[?|?]]]; auto.
  - done.
  - intros p n cs. unfold params. by rewrite run_params_.
Qed.

(** ** Registrations and the evaluations that follow them *)

Lemma run_app e cs1 cs2 :
  run EvaluateModel_body e (cs1 ++ cs2)
  = run EvaluateModel_body (run EvaluateModel_body e cs1) cs2.
Proof. revert e; induction cs1 as [|c cs1 IH]; intros e; simpl; auto. Qed.

Lemma outcomes_app e cs1 cs2 :
  outcomes EvaluateModel_body e (cs1 ++ cs2)
  = outcomes EvaluateModel_body e cs1
    ++ outcomes EvaluateModel_body (run EvaluateModel_body e cs1) cs2.
Proof.
  revert e; induction cs1 as [|c cs1 IH]; intros e; simpl; [done|].
  destruct c; simpl; by rewrite IH.
Qed.

Lemma run_fields e cs :
  run EvaluateModel_body e cs
  = {| params_ := params_ e;
       num_threads_ := num_threads_ e;
       observers_ := observers_ e ++ registered cs |}.
Proof.
  rewrite <- (run_params_ e cs), <- (run_num_threads_ e cs),
    <- (run_observers_ e cs).
  by destruct (run EvaluateModel_body e cs).
Qed.

(** An evaluation sees the observers registered before it, and only those.
    Whatever the body computes, in a call sequence on a fresh evaluator the
    [EvaluateModel] call that follows the calls [cs1] is made on the object
    that holds the constructor's [Params] and thread count and exactly the
    observers [cs1] registers, in registration order; the calls [cs2] after
    it do not change what it returns, and they start from the same object. *)
Theorem EvaluateModel_sees_earlier_registrations p num_threads cs1 dp cs2 :
  outcomes EvaluateModel_body (ImagenetModelEvaluator_new p num_threads)
    (cs1 ++ CallEvaluateModel dp :: cs2)
  = outcomes EvaluateModel_body (ImagenetModelEvaluator_new p num_threads) cs1
    ++ EvaluateModel_body
         {| params_ := p; num_threads_ := num_threads;
            observers_ := registered cs1 |} dp
    :: outcomes EvaluateModel_body
         {| params_ := p; num_threads_ := num_threads;
            observers_ := registered cs1 |} cs2.
Proof. rewrite outcomes_app. simpl. by rewrite run_fields. Qed.

(** Registrations are stable.  After any call sequence the observers held
    before it are still held, at their positions, and every pointer,
    [nullptr] and an already registered observer included, is held as often
    as before plus as often as the sequence registers it: [AddObserver]
    neither rejects nor merges, and no call removes or reorders. *)
Theorem registrations_are_stable e cs :
  observers_ e `prefix_of` observers_ (run EvaluateModel_body e cs) /\
  (forall o,
     length (filter (λ o', o' = o) (observers_ (run EvaluateModel_body e cs)))
     = (length (filter (λ o', o' = o) (observers_ e))
        + length (filter (λ o', o' = o) (registered cs)))%nat).
Proof.
  rewrite run_observers_. split.
  - by apply prefix_app_r.
  - intros o. by rewrite filter_app, length_app.
Qed.

(** ** The properties of an evaluation *)

Lemma completed_images_inv e dp sid x m :
  (sid, (x, m)) ∈ completed_images C e dp ->
  exists shards i images st,
    shards_of C e = Some shards /\
    shards !! i = Some images /\
    stage_init C (params_ e) dp (shard_id C i) = Some st /\
    sid = shard_id C i /\
    (x, m) ∈ completions C st images.
Proof.
  unfold completed_images.
  destruct (shards_of C e) as [shards|]; [|by intros ?%elem_of_nil].
  intros (i & l & Hl & Hx)%elem_of_concat_inv.
  rewrite list_lookup_imap in Hl.
  destruct (shards !! i) as [images|] eqn:Hi; simplify_eq/=.
  unfold shard_completions in Hx.
  destruct (stage_init C (params_ e) dp (shard_id C i)) as [st|] eqn:Hst;
    [|by apply elem_of_nil in Hx].
  apply list_elem_of_fmap in Hx as (c & Hc & Hin). simplify_eq.
  by exists shards, i, images, st.
Qed.


(** In every trace of an evaluation over distinct files, the calls of
    [OnSingleImageEvaluationComplete] for a completed image are the relay
    of its result, one call per registration, in registration order. *)
Lemma observable_filter_completes e dp t sid x m :
  (forall images,
     load_images C (params_ e) = Some images ->
     NoDup (image_file <$> images)) ->
  observable (EvaluateModel C e dp) t ->
  (sid, (x, m)) ∈ completed_images C e dp ->
  filter (completes (image_file x)) t
  = relay (observers_ e) sid m (image_file x).
Proof.
  intros Hnd Hobs (shards & i & images & st & Hs & Hi & Hst & -> & Hx)
    %completed_images_inv.
  pose proof (shards_files_NoDup e shards Hnd Hs) as Hfiles.
  unfold observable in Hobs.
  rewrite (EvaluateModel_Some e dp shards Hs) in Hobs. simpl in Hobs.
  rewrite (interleaving_filter_single _ _ t (S i)
             (evaluate_shard C e dp i images).2 Hobs).
  - unfold evaluate_shard. rewrite Hst.
    apply evaluate_images_filter_completed; [|done].
    apply (NoDup_concat_inner _ i _ Hfiles).
    by rewrite list_lookup_fmap, Hi.
  - simpl. by rewrite list_lookup_fmap, list_lookup_imap, Hi.
  - intros [|j] l Hj Hl; simpl in Hl.
    + simplify_eq. apply filter_completes_start.
    + rewrite list_lookup_fmap, list_lookup_imap in Hl.
      destruct (shards !! j) as [images'|] eqn:Hj'; simplify_eq/=.
      unfold evaluate_shard.
      destruct (stage_init C (params_ e) dp (shard_id C j)); [|done].
      apply evaluate_images_filter_absent.
      apply (NoDup_concat_disjoint _ i j (image_file <$> images)
               (image_file <$> images') _ Hfiles).
      * by rewrite list_lookup_fmap, Hi.
      * by rewrite list_lookup_fmap, Hj'.
      * congruence.
      * apply list_elem_of_fmap. exists x. split; [done|].
        by eapply completions_elem_of.
Qed.

(** The registration order.  In every trace of an evaluation whose dataset
    holds distinct files, and for every completed image: the calls of
    [OnSingleImageEvaluationComplete] for the image are one per entry of
    the observer list, in registration order, each with the identifier of
    the image's shard, the metrics of its stage run and its file. *)
Theorem OnSingleImageEvaluationComplete_exactly_once e dp t sid x m :
  (forall images,
     load_images C (params_ e) = Some images ->
     NoDup (image_file <$> images)) ->
  observable (EvaluateModel C e dp) t ->
  (sid, (x, m)) ∈ completed_images C e dp ->
  filter (completes (image_file x)) t
  = (λ o, OnSingleImageEvaluationComplete o sid m (image_file x))
      <$> observers_ e
  /\ (forall o,
        length (filter (notifies o (image_file x)) t)
        = length (filter (λ o', o' = o) (observers_ e)))
  /\ (forall o,
        o ∈ observers_ e -> NoDup (observers_ e) ->
        length (filter (notifies o (image_file x)) t) = 1%nat).
Proof.
  intros Hnd Hobs Hx.
  pose proof (observable_filter_completes e dp t sid x m Hnd Hobs Hx) as Hf.
  assert (forall o,
            length (filter (notifies o (image_file x)) t)
            = length (filter (λ o', o' = o) (observers_ e))) as Hcount.
  { intros o.
    rewrite <- (list_filter_filter_l (notifies o (image_file x))
                  (completes (image_file x)) t).
    - by rewrite Hf, filter_notifies_relay.
    - intros ev Hev. destruct ev; simpl in *; [done|by destruct Hev|done]. }
  split; [done|]. split; [done|].
  intros o Ho Hndo. rewrite Hcount. by apply filter_eq_once.
Qed.

(** ** One call per registration *)

















End Properties.

(** ** Dealing in turn is a partition *)

Lemma deal_length {A : Type} (shards : list (list A)) k l :
  length (deal shards k l) = length shards.
Proof.
  revert shards k; induction l as [|x l IH]; intros shards k; simpl; [done|].
  by rewrite IH, length_alter.
Qed.

Lemma concat_alter_snoc {A : Type} (shards : list (list A)) i x :
  (i < length shards)%nat ->
  concat (alter (λ s, s ++ [x]) i shards) ≡ₚ x :: concat shards.
Proof.
  revert i; induction shards as [|s shards IH]; intros [|i] Hi; simpl in *;
    try lia.
  - rewrite <- app_assoc. simpl. by rewrite <- Permutation_middle.
  - rewrite (IH i) by lia. by rewrite <- Permutation_middle.
Qed.

Lemma deal_Permutation {A : Type} (shards : list (list A)) k l :
  (0 < length shards)%nat ->
  concat (deal shards k l) ≡ₚ concat shards ++ l.
Proof.
  revert shards k; induction l as [|x l IH]; intros shards k Hpos; simpl.
  - by rewrite app_nil_r.
  - rewrite IH by (by rewrite length_alter).
    rewrite concat_alter_snoc by (by apply Nat.mod_upper_bound; lia).
    by rewrite <- Permutation_middle.
Qed.

Lemma round_robin_length {A : Type} n (l : list A) :
  length (round_robin n l) = n.
Proof. unfold round_robin. by rewrite deal_length, length_replicate. Qed.

Lemma round_robin_Permutation {A : Type} n (l : list A) :
  (0 < n)%nat -> concat (round_robin n l) ≡ₚ l.
Proof.
  intros Hn. unfold round_robin.
  rewrite deal_Permutation by (by rewrite length_replicate).
  assert (concat (replicate n ([] : list A)) = []) as ->; [|done].
  clear Hn. induction n; simpl; auto.
Qed.

(** ** The properties on the small dataset *)

Ltac interleave_step i :=
  eapply (interleaving_step _ i); [reflexivity|]; cbn [insert list_insert].

Ltac interleave :=
  repeat first
    [ apply interleaving_done; repeat constructor
    | interleave_step 0%nat
    | interleave_step 1%nat
    | interleave_step 2%nat ].

Lemma sample_trace_observable :
  observable (EvaluateModel sample_collaborators sample_evaluator None)
    sample_trace.
Proof. unfold observable. vm_compute. interleave. Qed.

Lemma sample_images_NoDup (images : list IndexedImage) :
  Some sample_images = Some images -> NoDup (image_file <$> images).
Proof.
  intros [= <-]. apply (bool_decide_unpack _). by vm_compute.
Qed.

(** The registration order on the small dataset: the fourth image
    completes in shard 0 as the second image of the shard; in the
    interleaved trace the calls for it are the two to the observers 5 and
    7, in that order, and the observer 5 is called once. *)
Lemma OnSingleImageEvaluationComplete_exactly_once_sample :
  filter (completes "ILSVRC2012_val_00000004.JPEG") sample_trace
  = [ OnSingleImageEvaluationComplete 5%N 0%N 2 "ILSVRC2012_val_00000004.JPEG";
      OnSingleImageEvaluationComplete 7%N 0%N 2 "ILSVRC2012_val_00000004.JPEG" ]
  /\ length (filter (notifies 5%N "ILSVRC2012_val_00000004.JPEG") sample_trace)
     = 1%nat.
Proof.
  destruct (OnSingleImageEvaluationComplete_exactly_once sample_collaborators
              (@round_robin_Permutation IndexedImage)
              sample_evaluator None sample_trace 0%N
              (mkImage 4 "ILSVRC2012_val_00000004.JPEG") 2)
    as (Hcalls & _ & Honce).
  - exact sample_images_NoDup.
  - exact sample_trace_observable.
  - vm_compute. repeat constructor.
  - split; [exact Hcalls|].
    apply Honce; [by left|].
    apply (bool_decide_unpack _). by vm_compute.
Defined.









(** C8 as stated fails: the evaluator of the header's usage example, built
    from a default-constructed [Params] with an observer added, holds the
    empty delegate, which is none of the four valid values. *)
Lemma default_delegate_not_valid :
  delegate
    (params (AddObserver 1%N (ImagenetModelEvaluator_new Params_default 1)))
  = ""
  /\ valid_delegate
       (delegate
          (params
             (AddObserver 1%N (ImagenetModelEvaluator_new Params_default 1))))
     = false.
Proof. split; reflexivity. Qed.

(** ** The definitions at work *)

(** The header's usage example: construct, add an observer, evaluate. *)
Example usage_example (body : ImagenetModelEvaluator -> option unit -> bool) :
  run body (ImagenetModelEvaluator_new sample_params 4)
    [CallAddObserver 5%N; CallEvaluateModel None]
  = {| params_ := sample_params; num_threads_ := 4; observers_ := [5%N] |}.
Proof. reflexivity. Qed.

Example eligible_images_sample :
  eligible_images sample_params sample_images sample_blacklist
  = [ mkImage 1 "ILSVRC2012_val_00000001.JPEG";
      mkImage 3 "ILSVRC2012_val_00000003.JPEG";
      mkImage 4 "ILSVRC2012_val_00000004.JPEG" ].
Proof. reflexivity. Qed.

Example eligible_images_no_cap :
  image_index
    <$> eligible_images Params_default sample_images sample_blacklist
  = [1; 3; 4; 5].
Proof. reflexivity. Qed.

Example round_robin_sample :
  round_robin 2 [1; 2; 3; 4; 5] = [[1; 3; 5]; [2; 4]].
Proof. reflexivity. Qed.

Example sample_status :
  status (EvaluateModel sample_collaborators sample_evaluator None)
  = kTfLiteOk.
Proof. reflexivity. Qed.

Example sample_stage_runs :
  image_index <$> stage_runs sample_trace = [3; 1; 4].
Proof. reflexivity. Qed.

Example sample_image_count_map :
  image_count_map sample_collaborators
    (round_robin 2
       (eligible_images sample_params sample_images sample_blacklist))
  = {[ 0%N := 2; 1%N := 1 ]}.
Proof. by vm_compute. Qed.

(** With the stage that fails on the image with index 4, shard 0 stops
    there, the image is not relayed, shard 1 is not affected, and the
    status is [kTfLiteError]. *)
Example failing_stage_evaluation :
  status (EvaluateModel failing_collaborators sample_evaluator None)
  = kTfLiteError /\
  shard_calls (EvaluateModel failing_collaborators sample_evaluator None)
  = [ [ StageRun 0%N (mkImage 1 "ILSVRC2012_val_00000001.JPEG");
        OnSingleImageEvaluationComplete 5%N 0%N 1
          "ILSVRC2012_val_00000001.JPEG";
        OnSingleImageEvaluationComplete 7%N 0%N 1
          "ILSVRC2012_val_00000001.JPEG";
        StageRun 0%N (mkImage 4 "ILSVRC2012_val_00000004.JPEG") ];
      [ StageRun 1%N (mkImage 3 "ILSVRC2012_val_00000003.JPEG");
        OnSingleImageEvaluationComplete 5%N 1%N 1
          "ILSVRC2012_val_00000003.JPEG";
        OnSingleImageEvaluationComplete 7%N 1%N 1
          "ILSVRC2012_val_00000003.JPEG" ] ].
Proof. split; reflexivity. Qed.

(** A thread count that is not positive: no shard, no call, failure. *)
Example no_threads_evaluation :
  EvaluateModel sample_collaborators
    (ImagenetModelEvaluator_new sample_params 0) None
  = {| status := kTfLiteError; start_calls := []; shard_calls := [] |}.
Proof. reflexivity. Qed.

(** The two thread counts of an evaluator are independent fields. *)
Example two_thread_counts :
  num_threads_ sample_evaluator = 2 /\
  num_interpreter_threads (params sample_evaluator) = 1.
Proof. split; reflexivity. Qed.

(** Two evaluations around a registration, with a body that returns the
    observers it is called with: the first sees the observer 5, the second
    the observers 5 and 7. *)
Example outcomes_example :
  outcomes (λ e (_ : option unit), observers_ e)
    (ImagenetModelEvaluator_new sample_params 4)
    [ CallAddObserver 5%N; CallEvaluateModel None;
      CallAddObserver 7%N; CallEvaluateModel None ]
  = [ [5%N]; [5%N; 7%N] ].
Proof. reflexivity. Qed.

(** The same observer registered twice, and [nullptr] once: all three
    entries are kept. *)
Example duplicate_registration
    (body : ImagenetModelEvaluator -> option unit -> bool) :
  observers_
    (run body (ImagenetModelEvaluator_new sample_params 4)
       [ CallAddObserver 5%N; CallAddObserver 5%N; CallAddObserver 0%N ])
  = [5%N; 5%N; 0%N].
Proof. reflexivity. Qed.
